(** * Connecticut real-estate ingestion: a shallow embedding

    The development follows [ingest_data.py] (class
    [CTRealEstateIngestion]: download, clean, load, verify and the
    orchestrator) and [test_connection.py] (the connectivity check).

    Python values are an inductive type, a [str] is a [string] with one
    character per [ascii] (code points below 256), Python integers are
    [Z].  A pandas frame is kept row-major: the column labels with their
    dtypes, and one list of cells per record.  The warehouse, the HTTP
    source and the logger live in an explicit world that every stage
    threads through an error-state monad. *)

From stdpp Require Import base list strings gmap pretty.

Open Scope Z_scope.

(** ** Python values *)

Module Py.

(** The scalars that a cell of the frame can hold.  A finite float is
    carried by its [repr] (which determines it); [nan] has a constructor of
    its own because pandas uses it as the missing-value marker. *)
Inductive value : Type :=
  | VNone
  | VNaN
  | VStr (s : string)
  | VInt (n : Z)
  | VFloat (repr : string)
  | VBool (b : bool).

#[global] Instance value_eq_dec : EqDecision value.
Proof. solve_decision. Defined.

(** [bool(x)]: [None], the empty string, zero and [False] are falsy;
    [nan] is a non-zero float and therefore truthy. *)
Definition truthy (v : value) : bool :=
  match v with
  | VNone => false
  | VNaN => true
  | VStr s => negb (String.eqb s "")
  | VInt n => negb (n =? 0)
  | VFloat r => negb (String.eqb r "0.0" || String.eqb r "-0.0")
  | VBool b => b
  end.

(** [x or y] *)
Definition or_ (x y : value) : value := if truthy x then x else y.

(** [str(x)] *)
Definition str (v : value) : string :=
  match v with
  | VNone => "None"
  | VNaN => "nan"
  | VStr s => s
  | VInt n => pretty n
  | VFloat r => r
  | VBool true => "True"
  | VBool false => "False"
  end.


(** [c.isspace()] on the code points below 256: the ASCII controls 9-13
    and 28-31, the space, NEL (133) and the no-break space (160). *)
Definition isspace (c : Ascii.ascii) : bool :=
  let n := Ascii.N_of_ascii c in
  ((9 <=? n) && (n <=? 13) || (28 <=? n) && (n <=? 32)
   || (n =? 133) || (n =? 160))%N.

Fixpoint lstrip (s : string) : string :=
  match s with
  | EmptyString => EmptyString
  | String c r => if isspace c then lstrip r else s
  end.

Fixpoint rstrip (s : string) : string :=
  match s with
  | EmptyString => EmptyString
  | String c r =>
      match rstrip r with
      | EmptyString => if isspace c then EmptyString else String c EmptyString
      | r' => String c r'
      end
  end.

(** [s.strip()] *)
Definition strip (s : string) : string := rstrip (lstrip s).

Definition first_char (s : string) : option Ascii.ascii :=
  match s with
  | EmptyString => None
  | String c _ => Some c
  end.

Fixpoint last_char (s : string) : option Ascii.ascii :=
  match s with
  | EmptyString => None
  | String c EmptyString => Some c
  | String _ r => last_char r
  end.

(** [", ".join(l)] and friends *)
Fixpoint join (sep : string) (l : list string) : string :=
  match l with
  | [] => ""
  | [x] => x
  | x :: r => x +:+ sep +:+ join sep r
  end.

(** [range(start, stop, step)] as the list it iterates over; a zero step
    raises [ValueError], a negative step with [start <= stop] is empty. *)
Definition range_len (start stop step : Z) : Z :=
  if 0 <? step then
    if start <? stop then (stop - start - 1) / step + 1 else 0
  else
    if stop <? start then (start - stop - 1) / (- step) + 1 else 0.

Definition range (start stop step : Z) : option (list Z) :=
  if step =? 0 then None
  else Some ((λ i : nat, start + Z.of_nat i * step)
               <$> seq 0 (Z.to_nat (range_len start stop step))).

(** [l[a:b]] for indices within [0 .. len(l)], the only ones the loader
    produces. *)
Definition slice {A} (l : list A) (a b : Z) : list A :=
  take (Z.to_nat (b - a)) (drop (Z.to_nat a) l).

End Py.

(** ** Frames *)

Module Frame.
Import Py.

Inductive dtype : Type := object | float64 | int64 | bool_.

#[global] Instance dtype_eq_dec : EqDecision dtype.
Proof. solve_decision. Defined.

Abbreviation Row := (list value).

(** [columns]: label and dtype of each column, in order; [rows]: the
    records in index order, each with one cell per column. *)
Record DataFrame : Type := mkFrame {
  columns : list (string * dtype);
  rows : list Row
}.

(** [len(df)] *)
Definition len (df : DataFrame) : Z := Z.of_nat (length (rows df)).

Definition labels (df : DataFrame) : list string := (columns df).*1.

Definition dtype_at (df : DataFrame) (j : nat) : option dtype :=
  snd <$> columns df !! j.

(** [df.head(n)]: the first [n] records, all but the last [-n] when [n] is
    negative. *)
Definition head (df : DataFrame) (n : Z) : DataFrame :=
  let k := if 0 <=? n then Z.to_nat n
           else (length (rows df) - Z.to_nat (- n))%nat in
  mkFrame (columns df) (take k (rows df)).

(** [df.iloc[a:b]] *)
Definition iloc (df : DataFrame) (a b : Z) : DataFrame :=
  mkFrame (columns df) (slice (rows df) a b).

(** [pd.notnull(x)] *)
Definition notnull (v : value) : bool :=
  match v with VNone | VNaN => false | _ => true end.

(** Position of a label among the columns (labels are unique in a frame
    that [read_csv] built). *)
Definition label_index (df : DataFrame) (name : string) : option nat :=
  fst <$> list_find (λ c, c.1 = name) (columns df).

(** [row.get(name, default)] for a row that [df.iterrows()] yields. *)
Definition row_get (df : DataFrame) (row : Row) (name : string)
    (default : value) : value :=
  match label_index df name with
  | Some j => match row !! j with Some v => v | None => default end
  | None => default
  end.

End Frame.

(** ** The world the program runs in *)

Module World.
Import Py Frame.

(** A raised exception: its class and its message.  Only instances of
    [Exception] are modelled, the failures that the stages meet (HTTP and
    parser errors, warehouse errors, [ValueError]). *)
Record exn : Type := mkExn { exn_class : string; exn_msg : string }.

(** The four statements the pipeline sends to the warehouse. *)
Inductive statement : Type :=
  | TruncateRawSales    (* TRUNCATE TABLE CT_REAL_ESTATE.BRONZE.raw_sales *)
  | InsertRawSales      (* INSERT INTO ... (14 columns) VALUES (14 x %s) *)
  | CountRawSales       (* SELECT COUNT( * ) FROM ... *)
  | TopTowns.           (* SELECT town, COUNT( * ) ... LIMIT 5 *)

(** Calls on the cursor and on the connection, as they are issued. *)
Inductive db_call : Type :=
  | Execute (q : statement)
  | ExecuteMany (q : statement) (values : list (list string))
  | FetchOne
  | FetchAll
  | Commit
  | CursorClose
  | ConnClose.

Inductive level : Type := INFO | ERROR.

(** One constructor per logging call of [ingest_data.py]; the numbers and
    names interpolated by the f-strings are the arguments. *)
Inductive message : Type :=
  | Rule                                  (* "=" * 60 *)
  | Step1Downloading
  | Url (u : string)
  | LimitingTo (n : Z)
  | Downloaded (n : Z)
  | ColumnsAre (names : list string)
  | ErrorDownloading (e : exn)
  | Step2Cleaning
  | DataCleaned (n : Z)
  | Step3Loading
  | ClearingExisting
  | Progress (end_idx total_rows : Z)
  | LoadedToBronze (inserted_count : Z)
  | Step4Verifying
  | TotalInBronze (count : Z)
  | TopFiveHeader
  | TownSales (town : string) (town_count : Z)
  | PipelineTitle
  | PipelineCompleted
  | DurationLine
  | RecordsProcessed (n : Z)
  | PipelineFailed                        (* the failure banner *)
  | ErrorLine (e : exn).

(** [data_url], [source], [upcast_none] and [top_towns] describe the
    surroundings and never change: the configured URL, the frame that
    [read_csv] makes of the response body, whether this pandas widens a
    numeric column to [object] to hold a [None] (releases before 1.3) or
    keeps the column and stores [nan] (later ones), and the answer of the
    warehouse to the top-towns query.  [faults] scripts the external calls
    still to come: each call consumes one entry and raises when the entry
    holds an exception.  The remaining fields are the mutable state. *)
Record World : Type := mkWorld {
  data_url : string;
  source : DataFrame;
  upcast_none : bool;
  top_towns : list (string * Z);
  faults : list (option exn);
  table : list (list string);
  cursor_open : bool;
  conn_open : bool;
  calls : list db_call;
  log : list (level * message)
}.

Definition set_faults (f : list (option exn)) (w : World) : World :=
  mkWorld (data_url w) (source w) (upcast_none w) (top_towns w) f (table w)
    (cursor_open w) (conn_open w) (calls w) (log w).

Definition set_table (t : list (list string)) (w : World) : World :=
  mkWorld (data_url w) (source w) (upcast_none w) (top_towns w) (faults w) t
    (cursor_open w) (conn_open w) (calls w) (log w).

Definition set_cursor_open (b : bool) (w : World) : World :=
  mkWorld (data_url w) (source w) (upcast_none w) (top_towns w) (faults w)
    (table w) b (conn_open w) (calls w) (log w).

Definition set_conn_open (b : bool) (w : World) : World :=
  mkWorld (data_url w) (source w) (upcast_none w) (top_towns w) (faults w)
    (table w) (cursor_open w) b (calls w) (log w).

Definition add_call (c : db_call) (w : World) : World :=
  mkWorld (data_url w) (source w) (upcast_none w) (top_towns w) (faults w)
    (table w) (cursor_open w) (conn_open w) (calls w ++ [c]) (log w).

Definition add_log (l : level) (m : message) (w : World) : World :=
  mkWorld (data_url w) (source w) (upcast_none w) (top_towns w) (faults w)
    (table w) (cursor_open w) (conn_open w) (calls w) (log w ++ [(l, m)]).

(** *** Computations that may raise *)

Inductive outcome (A : Type) : Type :=
  | Returned (a : A)
  | Raised (e : exn).
Arguments Returned {A} a.
Arguments Raised {A} e.

Definition M (A : Type) : Type := World → outcome A * World.

Definition ret {A} (a : A) : M A := λ w, (Returned a, w).

Definition bind {A B} (m : M A) (k : A → M B) : M B :=
  λ w, match m w with
       | (Returned a, w') => k a w'
       | (Raised e, w') => (Raised e, w')
       end.

Definition raise {A} (e : exn) : M A := λ w, (Raised e, w).

Definition get : M World := λ w, (Returned w, w).

Definition modify (f : World → World) : M unit := λ w, (Returned tt, f w).

(** [try: body except Exception as e: handler e] *)
Definition try_except {A} (body : M A) (handler : exn → M A) : M A :=
  λ w, match body w with
       | (Returned a, w') => (Returned a, w')
       | (Raised e, w') => handler e w'
       end.

(** [try: body finally: cleanup]: the cleanup runs on both exits and the
    outcome of the body stands unless the cleanup itself raises. *)
Definition finally {A} (body : M A) (cleanup : M unit) : M A :=
  λ w, match body w with
       | (r, w') =>
           match cleanup w' with
           | (Returned _, w'') => (r, w'')
           | (Raised e, w'') => (Raised e, w'')
           end
       end.

(** [for x in xs: acc = body acc x] *)
Fixpoint for_each {A B} (xs : list A) (acc : B) (body : B → A → M B) : M B :=
  match xs with
  | [] => ret acc
  | x :: r => bind (body acc x) (λ acc', for_each r acc' body)
  end.

(** [m] started in [w] returns [a] (it does not raise). *)
Definition returns {A} (m : M A) (w : World) (a : A) : Prop :=
  (m w).1 = Returned a.

(** The next [n] external calls succeed. *)
Definition no_fault (n : nat) (w : World) : Prop :=
  Forall (λ f, f = None) (take n (faults w)).

End World.

Declare Scope py_scope.
Delimit Scope py_scope with py.
Notation "x <- m ;; k" := (World.bind m (λ x, k))
  (at level 100, m at next level, right associativity) : py_scope.
Notation "m ;; k" := (World.bind m (λ _, k))
  (at level 100, right associativity) : py_scope.

(** ** [class CTRealEstateIngestion] *)

Module CTRealEstateIngestion.
Import Py Frame World.
Local Open Scope py_scope.

Definition info (m : message) : M unit := modify (add_log INFO m).
Definition error (m : message) : M unit := modify (add_log ERROR m).

(** A call that leaves the process (HTTP, parser, warehouse): it consumes
    the next entry of the fault script. *)
Definition external : M unit :=
  λ w, match faults w with
       | [] => (Returned tt, w)
       | None :: f => (Returned tt, set_faults f w)
       | Some e :: f => (Raised e, set_faults f w)
       end.

Definition cursor_execute (q : statement) : M unit :=
  external ;;
  modify (λ w, add_call (Execute q)
                 match q with
                 | TruncateRawSales => set_table [] w
                 | _ => w
                 end).

Definition cursor_executemany (q : statement) (values : list (list string))
  : M unit :=
  external ;;
  modify (λ w, add_call (ExecuteMany q values)
                 match q with
                 | InsertRawSales => set_table (table w ++ values) w
                 | _ => w
                 end).

(** [cursor.fetchone()[0]] after the count query *)
Definition cursor_fetchone_count : M Z :=
  external ;;
  modify (add_call FetchOne) ;;
  w <- get ;;
  ret (Z.of_nat (length (table w))).

(** [cursor.fetchall()] after the top-towns query *)
Definition cursor_fetchall_towns : M (list (string * Z)) :=
  external ;;
  modify (add_call FetchAll) ;;
  w <- get ;;
  ret (top_towns w).

Definition conn_commit : M unit := external ;; modify (add_call Commit).

(** [close()] only marks the handle as closed. *)
Definition cursor_close : M unit :=
  modify (λ w, add_call CursorClose (set_cursor_open false w)).
Definition conn_close : M unit :=
  modify (λ w, add_call ConnClose (set_conn_open false w)).

(** *** [download_data] *)

Definition download_data (limit : option Z) : M DataFrame :=
  info Rule ;;
  info Step1Downloading ;;
  w <- get ;;
  info (Url (data_url w)) ;;
  try_except
    (external ;;                      (* requests.get(url, timeout=300) *)
     external ;;                      (* response.raise_for_status() *)
     external ;;                      (* pd.read_csv(StringIO(response.text)) *)
     let df := source w in
     df <- (match limit with               (* if limit: *)
            | Some n =>
                if truthy (VInt n)
                then info (LimitingTo n) ;; ret (head df n)
                else ret df
            | None => ret df
            end) ;;
     info (Downloaded (len df)) ;;
     info (ColumnsAre (labels df)) ;;
     ret df)
    (λ e, error (ErrorDownloading e) ;; raise e).

(** *** [clean_data] *)

(** One cell of [df.where(pd.notnull(df), None)]: a null cell receives
    [None]; a column that is not of dtype [object] either is widened to
    hold it or stores it as [nan]. *)
Definition where_cell (upcast : bool) (dt : dtype) (v : value) : value :=
  if notnull v then v
  else match dt with
       | object => VNone
       | _ => if upcast then VNone else VNaN
       end.

Definition has_null_at (rs : list Row) (j : nat) : bool :=
  existsb (λ r, match r !! j with
                | Some v => negb (notnull v)
                | None => false
                end) rs.

Definition where_dtype (upcast : bool) (dt : dtype) (has_null : bool)
  : dtype :=
  if upcast && has_null then object else dt.

Definition where_notnull_none (upcast : bool) (df : DataFrame) : DataFrame :=
  mkFrame
    (imap (λ j c, (c.1, where_dtype upcast c.2 (has_null_at (rows df) j)))
       (columns df))
    ((λ r, imap (λ j v, match dtype_at df j with
                        | Some dt => where_cell upcast dt v
                        | None => v
                        end) r) <$> rows df).

(** [lambda x: x.strip() if isinstance(x, str) else x] *)
Definition strip_cell (x : value) : value :=
  match x with
  | VStr s => VStr (strip s)
  | _ => x
  end.

(** [df.select_dtypes(include=['object']).columns], as positions *)
Definition object_columns (df : DataFrame) : list nat :=
  filter (λ j, dtype_at df j = Some object) (seq 0 (length (columns df))).

(** [df[col] = df[col].apply(f)] *)
Definition apply_column (df : DataFrame) (j : nat) (f : value → value)
  : DataFrame :=
  mkFrame (columns df) (alter f j <$> rows df).

Definition strip_object_columns (df : DataFrame) : DataFrame :=
  foldl (λ d col,
           if decide (dtype_at d col = Some object)
           then apply_column d col strip_cell
           else d)
    df (object_columns df).

(** Closed forms of the two passes, cell by cell: the dtype a column ends
    with and the value a cell ends with.  [clean_frame_closed_form] below
    shows that the code computes exactly these. *)
Definition cleaned_dtype (upcast : bool) (df : DataFrame) (j : nat)
    (dt : dtype) : dtype :=
  where_dtype upcast dt (has_null_at (rows df) j).

Definition cleaned_cell (upcast : bool) (df : DataFrame) (j : nat)
    (v : value) : value :=
  match dtype_at df j with
  | Some dt =>
      let v1 := where_cell upcast dt v in
      if decide (cleaned_dtype upcast df j dt = object)
      then strip_cell v1 else v1
  | None => v
  end.

Definition clean_data (df : DataFrame) : M DataFrame :=
  info Rule ;;
  info Step2Cleaning ;;
  w <- get ;;
  let df := where_notnull_none (upcast_none w) df in
  let df := strip_object_columns df in
  info (DataCleaned (len df)) ;;
  ret df.

(** *** [load_to_bronze] *)

(** The source labels read by the loader, in the order of the 14 target
    columns of the insert statement. *)
Definition source_fields : list string :=
  [ "Serial Number"; "List Year"; "Date Recorded"; "Town"; "Address";
    "Assessed Value"; "Sale Amount"; "Sales Ratio"; "Property Type";
    "Residential Type"; "Non Use Code"; "Assessor Remarks"; "OPM remarks";
    "Location" ].

Definition target_columns : list string :=
  [ "serial_number"; "list_year"; "date_recorded"; "town"; "address";
    "assessed_value"; "sale_amount"; "sales_ratio"; "property_type";
    "residential_type"; "non_use_code"; "assessor_remarks"; "opm_remarks";
    "location" ].

(** [str(row.get(name, '') or '')] *)
Definition field_text (df : DataFrame) (row : Row) (name : string) : string :=
  str (or_ (row_get df row name (VStr "")) (VStr "")).

Definition value_tuple (df : DataFrame) (row : Row) : list string :=
  field_text df row <$> source_fields.

(** The list [values] built by the inner loop over [batch.iterrows()] *)
Definition batch_values (batch : DataFrame) : list (list string) :=
  value_tuple batch <$> rows batch.

(** [df.iloc[start_idx:min(start_idx + batch_size, total_rows)]] *)
Definition batch_at (df : DataFrame) (batch_size start_idx : Z) : DataFrame :=
  iloc df start_idx (Z.min (start_idx + batch_size) (len df)).

(** The batches the loop of the loader walks through, in order. *)
Definition batches (df : DataFrame) (batch_size : Z)
  : option (list DataFrame) :=
  fmap (M := list) (batch_at df batch_size) <$> range 0 (len df) batch_size.

Definition load_batch (df : DataFrame) (batch_size : Z)
    (inserted_count start_idx : Z) : M Z :=
  let total_rows := len df in
  let end_idx := Z.min (start_idx + batch_size) total_rows in
  let batch := batch_at df batch_size start_idx in
  let values := batch_values batch in
  cursor_executemany InsertRawSales values ;;
  let inserted_count := inserted_count + Z.of_nat (length values) in
  info (Progress end_idx total_rows) ;;
  ret inserted_count.

Definition load_to_bronze (df : DataFrame) (batch_size : Z) : M unit :=
  info Rule ;;
  info Step3Loading ;;
  info ClearingExisting ;;
  cursor_execute TruncateRawSales ;;
  match range 0 (len df) batch_size with
  | None => raise (mkExn "ValueError" "range() arg 3 must not be zero")
  | Some starts =>
      inserted_count <- for_each starts 0 (load_batch df batch_size) ;;
      conn_commit ;;
      info (LoadedToBronze inserted_count)
  end.

(** *** [verify_load] *)

Definition verify_load : M unit :=
  info Rule ;;
  info Step4Verifying ;;
  cursor_execute CountRawSales ;;
  count <- cursor_fetchone_count ;;
  cursor_execute TopTowns ;;
  top <- cursor_fetchall_towns ;;
  info (TotalInBronze count) ;;
  info TopFiveHeader ;;
  for_each top tt (λ _ t, info (TownSales t.1 t.2)).

(** *** [run_pipeline] *)

(** The body of the [try] block. *)
Definition pipeline_body (limit : option Z) : M unit :=
  info Rule ;;
  info PipelineTitle ;;
  info Rule ;;
  df <- download_data limit ;;
  df <- clean_data df ;;
  load_to_bronze df 5000 ;;
  verify_load ;;
  info Rule ;;
  info PipelineCompleted ;;
  info DurationLine ;;
  info (RecordsProcessed (len df)) ;;
  info Rule.

(** The [except Exception as e] block. *)
Definition pipeline_failed (e : exn) : M unit :=
  error Rule ;;
  error PipelineFailed ;;
  error (ErrorLine e) ;;
  error Rule ;;
  raise e.

(** The [finally] block. *)
Definition release : M unit := cursor_close ;; conn_close.

Definition run_pipeline (limit : option Z) : M unit :=
  finally (try_except (pipeline_body limit) pipeline_failed) release.

End CTRealEstateIngestion.

(** ** [test_connection.py] *)

Module TestConnection.
Import Py World.

Definition required_vars : list string :=
  [ "SNOWFLAKE_ACCOUNT"; "SNOWFLAKE_USER"; "SNOWFLAKE_PASSWORD";
    "SNOWFLAKE_WAREHOUSE"; "SNOWFLAKE_DATABASE" ].

(** [os.getenv(v)] on the process environment *)
Definition getenv (env : gmap string string) (v : string) : option string :=
  env !! v.

(** [bool(os.getenv(v))]: an unset variable gives [None], which is falsy,
    and so is the empty string. *)
Definition is_set (env : gmap string string) (v : string) : bool :=
  match getenv env v with
  | Some s => truthy (VStr s)
  | None => false
  end.

(** [x or default] on an optional string *)
Definition getenv_or (env : gmap string string) (v : string)
    (default : option string) : option string :=
  if is_set env v then getenv env v else default.

Record connect_args : Type := mkArgs {
  account : option string;
  user : option string;
  password : option string;
  warehouse : option string;
  database : option string;
  schema : option string;
  role : option string
}.

(** What the script prints and which calls it makes, in order. *)
Inductive event : Type :=
  | PrintTitle
  | PrintVar (var shown : string)
  | PrintMissingHeader
  | PrintLine (line : string)
  | PrintFixEnv
  | PrintConnecting
  | Connect (args : connect_args)
  | ExecuteIdentityQuery
  | FetchIdentity
  | PrintSuccess (version db usr : string)
  | CloseCursor
  | CloseConnection
  | PrintFailed (e : exn)
  | PrintPossibleIssues.

(** The text shown for one variable: the password is masked. *)
Definition shown (env : gmap string string) (var : string) : string :=
  if String.eqb var "SNOWFLAKE_PASSWORD"
  then (if is_set env var then "**********" else "NOT SET")
  else match getenv env var with
       | Some s => s
       | None => "None"
       end.

(** [[v for v in required_vars if not os.getenv(v)]] *)
Definition missing (env : gmap string string) : list string :=
  filter (λ v, is_set env v = false) required_vars.

Definition args_of (env : gmap string string) : connect_args :=
  mkArgs (getenv env "SNOWFLAKE_ACCOUNT") (getenv env "SNOWFLAKE_USER")
    (getenv env "SNOWFLAKE_PASSWORD") (getenv env "SNOWFLAKE_WAREHOUSE")
    (getenv env "SNOWFLAKE_DATABASE")
    (getenv_or env "SNOWFLAKE_SCHEMA" (Some "PUBLIC"))
    (getenv_or env "SNOWFLAKE_ROLE" None).

Definition report_failure (e : exn) : list event :=
  [PrintFailed e; PrintPossibleIssues].

Definition next_fault (fs : list (option exn))
  : option exn * list (option exn) :=
  match fs with
  | [] => (None, [])
  | f :: r => (f, r)
  end.

(** The [try] block with its handler: [connect], [execute] and [fetchone]
    each consume one entry of the fault script [fs]; [identity] is the row
    the server answers with. *)
Definition connect_and_query (env : gmap string string)
    (fs : list (option exn)) (identity : string * string * string)
  : list event :=
  let '(f1, fs) := next_fault fs in
  Connect (args_of env) ::
  match f1 with
  | Some e => report_failure e
  | None =>
      let '(f2, fs) := next_fault fs in
      ExecuteIdentityQuery ::
      match f2 with
      | Some e => report_failure e
      | None =>
          let '(f3, _) := next_fault fs in
          FetchIdentity ::
          match f3 with
          | Some e => report_failure e
          | None =>
              [ PrintSuccess identity.1.1 identity.1.2 identity.2;
                CloseCursor; CloseConnection ]
          end
      end
  end.

(** The whole script: the events and the exit status of the process. *)
Definition main (env : gmap string string) (fs : list (option exn))
    (identity : string * string * string) : list event * Z :=
  let header :=
    PrintTitle :: ((λ var, PrintVar var (shown env var)) <$> required_vars) in
  match missing env with
  | [] =>
      (header ++ PrintConnecting :: connect_and_query env fs identity, 0)
  | _ :: _ =>
      (header ++ [ PrintMissingHeader; PrintLine (join ", " (missing env));
                   PrintFixEnv ], 1)
  end.

End TestConnection.

(** ** Sample data *)

Module Samples.
Import Py Frame World.

(** Three sales as [read_csv] delivers them: a town with trailing blanks, a
    record without town whose sale amount is zero and whose remarks are
    blank, and a town with a leading blank. *)
Definition sales : DataFrame :=
  mkFrame
    [ ("Serial Number", int64); ("Town", object); ("Sale Amount", int64);
      ("Sales Ratio", float64); ("Assessor Remarks", object) ]
    [ [VInt 200177; VStr "Hartford  "; VInt 325000; VFloat "0.463"; VNaN];
      [VInt 200178; VNaN; VInt 0; VNaN; VStr "   "];
      [VInt 200179; VStr " Avon"; VInt 430000; VFloat "0.5354"; VStr ""] ].

(** A world in which no external call fails; the destination table still
    holds a row of an earlier run. *)
Definition quiet (src : DataFrame) (upcast : bool) : World :=
  mkWorld "https://data.ct.gov/api/views/5mzw-sjtu/rows.csv" src upcast
    [("Hartford", 1)] []
    [["1"; "2001"; ""; "Avon"; ""; ""; ""; ""; ""; ""; ""; ""; ""; ""]]
    true true [] [].

(** The same world with a script for the external calls. *)
Definition scripted (src : DataFrame) (fs : list (option exn)) : World :=
  set_faults fs (quiet src false).

(** An environment in which only the password is not set. *)
Definition env_without_password : gmap string string :=
  <["SNOWFLAKE_ACCOUNT" := "org-acct"]>
  (<["SNOWFLAKE_USER" := "etl"]>
  (<["SNOWFLAKE_WAREHOUSE" := "COMPUTE_WH"]>
  (<["SNOWFLAKE_DATABASE" := "CT_REAL_ESTATE"]> ∅))).

End Samples.

(** ** Closed forms used for whole runs *)

Module Runs.
Import Py Frame World CTRealEstateIngestion.

(** The frame the download stage hands on: the source, cut by [head] when
    a limit is given and truthy. *)
Definition limited (src : DataFrame) (limit : option Z) : DataFrame :=
  match limit with
  | Some n => if truthy (VInt n) then head src n else src
  | None => src
  end.

(** The frame the clean stage hands on. *)
Definition cleaned (upcast : bool) (df : DataFrame) : DataFrame :=
  strip_object_columns (where_notnull_none upcast df).

(** An environment in which all five required values are set. *)
Definition env_complete : gmap string string :=
  <["SNOWFLAKE_PASSWORD" := "s3cret"]> Samples.env_without_password.

End Runs.

(** * Properties *)

(** ** Strings *)

Section Strip.
Import Py.

Lemma lstrip_first s c : first_char (lstrip s) = Some c → isspace c = false.
Proof.
  induction s as [|a s IH]; simpl; [done|].
  destruct (isspace a) eqn:Ha; [done|].
  simpl. by intros [= <-].
Qed.

Lemma rstrip_last s c : last_char (rstrip s) = Some c → isspace c = false.
Proof.
  revert c. induction s as [|a s IH]; intros c; simpl; [done|].
  destruct (rstrip s) as [|b r] eqn:Hr.
  - destruct (isspace a) eqn:Ha; simpl; [done|]. by intros [= <-].
  - simpl. intros H. by apply IH.
Qed.

Lemma rstrip_first s c : first_char (rstrip s) = Some c → first_char s = Some c.
Proof.
  destruct s as [|a s]; simpl; [done|].
  destruct (rstrip s); [destruct (isspace a)|]; simpl; done.
Qed.

Lemma lstrip_fixed s :
  (∀ c, first_char s = Some c → isspace c = false) → lstrip s = s.
Proof.
  destruct s as [|a s]; simpl; [done|].
  intros H. by rewrite (H a eq_refl).
Qed.

Lemma rstrip_fixed s :
  (∀ c, last_char s = Some c → isspace c = false) → rstrip s = s.
Proof.
  induction s as [|a s IH]; simpl; [done|].
  intros H. destruct s as [|b s].
  - simpl. by rewrite (H a eq_refl).
  - rewrite IH by done. done.
Qed.

Lemma strip_first s c : first_char (strip s) = Some c → isspace c = false.
Proof. intros H. apply (lstrip_first s), rstrip_first, H. Qed.

Lemma strip_last s c : last_char (strip s) = Some c → isspace c = false.
Proof. apply rstrip_last. Qed.

Lemma strip_idem s : strip (strip s) = strip s.
Proof.
  unfold strip at 1.
  rewrite (lstrip_fixed (strip s)) by apply strip_first.
  apply rstrip_fixed, strip_last.
Qed.

End Strip.
(** ** The batches of the loader *)

Section Batches.
Import Py Frame World CTRealEstateIngestion.

Lemma range_len_bounds (total b : Z) :
  0 < b → 0 ≤ total →
  0 ≤ range_len 0 total b
  ∧ total ≤ range_len 0 total b * b
  ∧ (0 < range_len 0 total b → (range_len 0 total b - 1) * b < total).
Proof.
  intros Hb Ht. unfold range_len.
  destruct (Z.ltb_spec 0 b) as [_|]; [|lia].
  destruct (Z.ltb_spec 0 total) as [Hpos|]; [|lia].
  rewrite Z.sub_0_r.
  pose proof (Z.mul_div_le (total - 1) b Hb).
  pose proof (Z.mul_succ_div_gt (total - 1) b Hb).
  pose proof (Z.div_pos (total - 1) b).
  nia.
Qed.

Lemma slices_join {A} (l : list A) (b : Z) (k : nat) :
  0 < b →
  (k = 0%nat ∨ (Z.of_nat k - 1) * b < Z.of_nat (length l)) →
  mjoin ((λ i : nat, slice l (0 + Z.of_nat i * b)
                       (Z.min (0 + Z.of_nat i * b + b) (Z.of_nat (length l))))
           <$> seq 0 k)
  = take (Z.to_nat (Z.min (Z.of_nat k * b) (Z.of_nat (length l)))) l.
Proof.
  intros Hb. induction k as [|k IH]; intros Hk.
  - simpl. by rewrite Z.min_l by lia.
  - rewrite seq_S, fmap_app, join_app. simpl.
    rewrite IH, app_nil_r by lia.
    unfold slice. rewrite Z.min_l by lia.
    rewrite take_take_drop. f_equal. lia.
Qed.



End Batches.

(** ** The clean stage *)

Section Clean.
Import Py Frame World CTRealEstateIngestion.

Lemma strip_cell_idem v : strip_cell (strip_cell v) = strip_cell v.
Proof. destruct v; simpl; try done. by rewrite strip_idem. Qed.

Lemma strip_cell_notnull v : notnull (strip_cell v) = notnull v.
Proof. by destruct v. Qed.

Lemma strip_cell_null v : notnull v = false → strip_cell v = v.
Proof. by destruct v. Qed.

Lemma foldl_alter_lookup (f : value → value) (js : list nat) (r : Row) j :
  (∀ v, f (f v) = f v) →
  foldl (λ r j, alter f j r) r js !! j
  = if decide (j ∈ js) then f <$> r !! j else r !! j.
Proof.
  intros Hf. revert r. induction js as [|k js IH]; intros r; cbn [foldl].
  - destruct (decide (j ∈ [])) as [Hin|_]; [|done]. by apply elem_of_nil in Hin.
  - rewrite IH, list_lookup_alter.
    destruct (decide (k = j)) as [->|Hne].
    + destruct (decide (j ∈ j :: js)) as [_|Hn]; [|by destruct Hn; left].
      destruct (decide (j ∈ js)); [|done].
      destruct (r !! j); simpl; [|done]. by rewrite Hf.
    + destruct (decide (j ∈ js)) as [Hin|Hin];
        destruct (decide (j ∈ k :: js)) as [Hin'|Hin']; try done.
      * destruct Hin'. by right.
      * apply elem_of_cons in Hin' as [?|?]; congruence.
Qed.

Lemma foldl_strip_columns (d : DataFrame) (js : list nat) :
  (∀ j, j ∈ js → dtype_at d j = Some object) →
  foldl (λ d col, if decide (dtype_at d col = Some object)
                  then apply_column d col strip_cell else d) d js
  = mkFrame (columns d)
      ((λ r, foldl (λ r j, alter strip_cell j r) r js) <$> rows d).
Proof.
  revert d. induction js as [|k js IH]; intros d Hjs; simpl.
  - destruct d as [c rs]; simpl. f_equal.
    symmetry. apply list_fmap_id.
  - rewrite decide_True by (apply Hjs; set_solver).
    rewrite IH.
    + simpl. f_equal. by rewrite <- list_fmap_compose.
    + intros j Hj. unfold dtype_at, apply_column. simpl.
      apply Hjs. set_solver.
Qed.

Lemma elem_of_object_columns (d : DataFrame) j :
  j ∈ object_columns d ↔ dtype_at d j = Some object.
Proof.
  unfold object_columns. rewrite list_elem_of_filter, elem_of_seq.
  split; [tauto|]. intros H. split; [done|].
  unfold dtype_at in H. destruct (columns d !! j) eqn:Hc; [|done].
  apply lookup_lt_Some in Hc. lia.
Qed.

Lemma strip_object_columns_closed_form (d : DataFrame) :
  strip_object_columns d
  = mkFrame (columns d)
      (imap (λ j v, if decide (dtype_at d j = Some object)
                    then strip_cell v else v) <$> rows d).
Proof.
  unfold strip_object_columns.
  rewrite foldl_strip_columns
    by (intros j; apply elem_of_object_columns).
  f_equal. apply list_fmap_ext. intros _ r _.
  apply list_eq. intros j.
  rewrite foldl_alter_lookup by apply strip_cell_idem.
  rewrite list_lookup_imap.
  destruct (r !! j) as [v|]; simpl; [|by case_decide].
  destruct (decide (j ∈ object_columns d)) as [Hin|Hin];
    rewrite elem_of_object_columns in Hin.
  - by rewrite decide_True.
  - by rewrite decide_False.
Qed.

Lemma dtype_at_where upcast (df : DataFrame) j :
  dtype_at (where_notnull_none upcast df) j
  = cleaned_dtype upcast df j <$> dtype_at df j.
Proof.
  unfold dtype_at, where_notnull_none. simpl.
  rewrite list_lookup_imap. by destruct (columns df !! j).
Qed.

Lemma clean_frame_closed_form upcast (df : DataFrame) :
  strip_object_columns (where_notnull_none upcast df)
  = mkFrame
      (imap (λ j c, (c.1, cleaned_dtype upcast df j c.2)) (columns df))
      (imap (cleaned_cell upcast df) <$> rows df).
Proof.
  rewrite strip_object_columns_closed_form.
  f_equal.
  change (rows (where_notnull_none upcast df))
    with ((λ r, imap (λ j v, match dtype_at df j with
                             | Some dt => where_cell upcast dt v
                             | None => v
                             end) r) <$> rows df).
  rewrite <- list_fmap_compose. apply list_fmap_ext. intros _ r _. simpl.
  apply list_eq. intros j. rewrite !list_lookup_imap.
  destruct (r !! j) as [v|]; simpl; [|done]. f_equal.
  rewrite (dtype_at_where upcast df j). unfold cleaned_cell.
  destruct (dtype_at df j) as [dt|]; simpl.
  - destruct (decide (cleaned_dtype upcast df j dt = object)) as [->|Hne].
    + by rewrite decide_True.
    + rewrite decide_False; [done|]. by intros [= ?].
  - done.
Qed.

Lemma clean_data_returns (df : DataFrame) (w : World) :
  returns (clean_data df) w
    (strip_object_columns (where_notnull_none (upcast_none w) df)).
Proof. reflexivity. Qed.

Lemma cleaned_cell_notnull upcast (df : DataFrame) j v :
  notnull (cleaned_cell upcast df j v) = notnull v.
Proof.
  unfold cleaned_cell. destruct (dtype_at df j) as [dt|]; [|done].
  simpl. case_decide; rewrite ?strip_cell_notnull;
    unfold where_cell; by destruct v, dt, upcast.
Qed.

Lemma has_null_at_imap (g : nat → value → value) (rs : list Row) j :
  (∀ v, notnull (g j v) = notnull v) →
  has_null_at (imap g <$> rs) j = has_null_at rs j.
Proof.
  intros Hg. unfold has_null_at.
  induction rs as [|r rs IH]; [done|].
  rewrite fmap_cons. cbn [existsb]. rewrite IH, list_lookup_imap.
  destruct (r !! j) as [v|]; simpl; [|done]. by rewrite Hg.
Qed.

Lemma where_dtype_idem upcast dt h :
  where_dtype upcast (where_dtype upcast dt h) h = where_dtype upcast dt h.
Proof. by destruct upcast, h. Qed.

Lemma where_cell_settled upcast dt h v :
  let d1 := where_dtype upcast dt h in
  let x := if decide (d1 = object)
           then strip_cell (where_cell upcast dt v)
           else where_cell upcast dt v in
  (notnull v = false → h = true) →
  where_cell upcast d1 x = x.
Proof.
  intros d1 x Hh. subst d1 x. unfold where_cell.
  destruct (notnull v) eqn:Hv.
  - case_decide; rewrite ?strip_cell_notnull, Hv; done.
  - rewrite Hh by done.
    destruct upcast, dt; simpl; try done.
Qed.

Lemma has_null_at_lookup (rs : list Row) i r j v :
  rs !! i = Some r → r !! j = Some v → notnull v = false →
  has_null_at rs j = true.
Proof.
  intros Hr Hv Hn. unfold has_null_at. apply existsb_exists.
  exists r. split.
  - apply list_elem_of_In. by eapply list_elem_of_lookup_2.
  - by rewrite Hv, Hn.
Qed.

Lemma clean_frame_idem upcast (df : DataFrame) :
  let c := strip_object_columns (where_notnull_none upcast df) in
  strip_object_columns (where_notnull_none upcast c) = c.
Proof.
  intros c. subst c.
  rewrite (clean_frame_closed_form upcast df).
  set (c := mkFrame _ _).
  rewrite (clean_frame_closed_form upcast c).
  assert (Hnull : ∀ j, has_null_at (rows c) j = has_null_at (rows df) j).
  { intros j. apply has_null_at_imap. intros v. apply cleaned_cell_notnull. }
  assert (Hdt : ∀ j, dtype_at c j = cleaned_dtype upcast df j <$> dtype_at df j).
  { intros j. unfold dtype_at, c. simpl. rewrite list_lookup_imap.
    by destruct (columns df !! j). }
  unfold c at 3. f_equal.
  - apply list_eq. intros j. unfold c. simpl. rewrite !list_lookup_imap.
    destruct (columns df !! j) as [[name dt]|]; simpl; [|done].
    do 2 f_equal. unfold cleaned_dtype. simpl.
    fold c. rewrite Hnull. apply where_dtype_idem.
  - fold c.
    change (rows c) with (imap (cleaned_cell upcast df) <$> rows df) at 1.
    rewrite <- list_fmap_compose.
    apply list_fmap_ext. intros i r Hr. simpl.
    apply list_eq. intros j. rewrite !list_lookup_imap.
    destruct (r !! j) as [v|] eqn:Hv; simpl; [|done]. f_equal.
    unfold cleaned_cell at 1. rewrite Hdt.
    unfold cleaned_cell.
    destruct (dtype_at df j) as [dt|]; simpl; [|done].
    unfold cleaned_dtype. rewrite Hnull, where_dtype_idem.
    rewrite where_cell_settled
      by (intros Hn; by eapply has_null_at_lookup).
    case_decide; [|done]. apply strip_cell_idem.
Qed.

(** C2.  The clean stage returns a frame with as many records as it was
    given, and the record at each position of the result is the cleaning of
    the record at the same position of the input: nothing is dropped, added
    or reordered. *)
Theorem clean_preserves_records (df : DataFrame) (w : World) :
  ∃ df' : DataFrame,
    returns (clean_data df) w df'
    ∧ length (rows df') = length (rows df)
    ∧ len df' = len df
    ∧ ∀ i : nat,
        rows df' !! i
        = imap (cleaned_cell (upcast_none w) df) <$> rows df !! i.
Proof.
  eexists. split; [apply clean_data_returns|].
  rewrite clean_frame_closed_form. unfold len. simpl.
  rewrite length_fmap. repeat split.
  intros i. by rewrite list_lookup_fmap.
Qed.

(** C8.  Cleaning is idempotent: cleaning a frame and cleaning the result
    once more returns the very frame that the first cleaning returned
    (columns, dtypes and every cell). *)
Theorem clean_idempotent (df : DataFrame) (w : World) :
  ∃ d1 : DataFrame,
    returns (clean_data df) w d1
    ∧ returns (bind (clean_data df) clean_data) w d1.
Proof.
  eexists. split; [apply clean_data_returns|].
  unfold returns. simpl. f_equal. apply clean_frame_idem.
Qed.

End Clean.

(** ** What the loader sends *)

Section LoaderCalls.
Import Py Frame World CTRealEstateIngestion.

Lemma Forall_take_weaken {A} (P : A → Prop) (n m : nat) (l : list A) :
  (n ≤ m)%nat → Forall P (take m l) → Forall P (take n l).
Proof.
  intros Hle H.
  replace (take n l) with (take n (take m l))
    by (rewrite take_take; f_equal; lia).
  by apply Forall_take.
Qed.

(** The loop of the loader, when the warehouse accepts every insert: one
    [executemany] per start index with the tuples of that batch, the rows
    appended to the table, one progress line per batch. *)
Lemma for_each_load_batch (df : DataFrame) (b : Z) (starts : list Z) :
  ∀ acc url src up towns fs tbl co cn cl lg,
    Forall (λ f, f = None) (take (length starts) fs) →
    for_each starts acc (load_batch df b)
      (mkWorld url src up towns fs tbl co cn cl lg)
    = (Returned
         (acc + Z.of_nat
                  (length (mjoin ((λ s, batch_values (batch_at df b s))
                                    <$> starts)))),
       mkWorld url src up towns (drop (length starts) fs)
         (tbl ++ mjoin ((λ s, batch_values (batch_at df b s)) <$> starts))
         co cn
         (cl ++ ((λ s, ExecuteMany InsertRawSales
                         (batch_values (batch_at df b s))) <$> starts))
         (lg ++ ((λ s, (INFO, Progress (Z.min (s + b) (len df)) (len df)))
                   <$> starts))).
Proof.
  induction starts as [|s starts IH]; intros acc url src up towns fs tbl co
    cn cl lg Hok.
  - simpl. unfold ret. rewrite drop_0, !app_nil_r.
    do 2 f_equal. lia.
  - cbn [for_each]. unfold bind at 1.
    assert (Hstep : ∀ fs', (fs = [] ∧ fs' = []) ∨ fs = None :: fs' →
      load_batch df b acc s (mkWorld url src up towns fs tbl co cn cl lg)
      = (Returned (acc + Z.of_nat (length (batch_values (batch_at df b s)))),
         mkWorld url src up towns fs'
           (tbl ++ batch_values (batch_at df b s)) co cn
           (cl ++ [ExecuteMany InsertRawSales
                     (batch_values (batch_at df b s))])
           (lg ++ [(INFO, Progress (Z.min (s + b) (len df)) (len df))]))).
    { intros fs' [[-> ->]| ->]; reflexivity. }
    destruct fs as [|[e|] fs].
    + rewrite (Hstep []) by (by left).
      rewrite (IH _ _ _ _ _ [] _ _ _ _ _) by (by rewrite take_nil).
      rewrite drop_nil. cbn [fmap list_fmap mjoin list_join].
      rewrite length_app, <- !app_assoc. f_equal. f_equal.
      by rewrite Nat2Z.inj_add, Z.add_assoc.
    + simpl in Hok. by inversion Hok.
    + rewrite (Hstep fs) by (by right).
      simpl in Hok. inversion Hok as [|? ? _ Hok']. subst.
      rewrite (IH _ _ _ _ _ fs _ _ _ _ _ Hok').
      cbn [fmap list_fmap mjoin list_join length drop].
      rewrite length_app, <- !app_assoc. f_equal. f_equal.
      by rewrite Nat2Z.inj_add, Z.add_assoc.
Qed.

(** The whole stage on a warehouse that accepts the truncate, one insert
    per batch and the commit: the calls are exactly these, in this order,
    each batch in a single [executemany], and afterwards the table holds
    the tuples of the batches and nothing else. *)
Theorem load_to_bronze_sends_batches (df : DataFrame) (b : Z) (w : World)
    (bs : list DataFrame) :
  batches df b = Some bs →
  no_fault (length bs + 2) w →
  ∃ w' : World,
    load_to_bronze df b w = (Returned tt, w')
    ∧ calls w'
      = calls w ++ Execute TruncateRawSales
          :: (ExecuteMany InsertRawSales ∘ batch_values <$> bs)
          ++ [Commit]
    ∧ table w' = mjoin (batch_values <$> bs)
    ∧ cursor_open w' = cursor_open w
    ∧ conn_open w' = conn_open w.
Proof.
  intros Hbs Hok. unfold batches in Hbs.
  destruct (range 0 (len df) b) as [starts|] eqn:Hr; [|done].
  simpl in Hbs. injection Hbs as <-.
  unfold load_to_bronze. rewrite Hr.
  destruct w as [url src up towns fs tbl co cn cl lg].
  unfold no_fault in Hok. simpl in Hok. rewrite length_fmap in Hok.
  assert (Hloop : ∀ fs1 acc tbl1 cl1 lg1,
    Forall (λ f, f = None) (take (length starts + 1) fs1) →
    ∃ w', (bind (for_each starts acc (load_batch df b))
             (λ n, bind conn_commit (λ _, info (LoadedToBronze n))))
            (mkWorld url src up towns fs1 tbl1 co cn cl1 lg1)
          = (Returned tt, w')
      ∧ calls w'
        = cl1 ++ ((λ s, ExecuteMany InsertRawSales
                          (batch_values (batch_at df b s))) <$> starts)
              ++ [Commit]
      ∧ table w'
        = tbl1 ++ mjoin ((λ s, batch_values (batch_at df b s)) <$> starts)
      ∧ cursor_open w' = co ∧ conn_open w' = cn).
  { intros fs1 acc tbl1 cl1 lg1 Hok1. unfold bind at 1.
    rewrite for_each_load_batch.
    - assert (Hd : drop (length starts) fs1 = []
                   ∨ ∃ r, drop (length starts) fs1 = None :: r).
      { destruct (drop (length starts) fs1) as [|f r] eqn:Hd; [by left|].
        right. exists r. f_equal.
        assert (Hf : fs1 !! (length starts + 0)%nat = Some f)
          by (by rewrite <- lookup_drop, Hd).
        rewrite Nat.add_0_r in Hf.
        eapply (Forall_lookup_1 _ _ (length starts) f) in Hok1; [done|].
        rewrite lookup_take. case_decide; [done|lia]. }
      destruct Hd as [Hd|[r Hd]]; rewrite Hd;
        (eexists; split; [reflexivity|]); simpl;
        rewrite <- ?app_assoc; done.
    - eapply Forall_take_weaken; [|exact Hok1]. lia. }
  destruct fs as [|[e|] fs].
  - destruct (Hloop [] 0 [] (cl ++ [Execute TruncateRawSales])
                (lg ++ [(INFO, Rule)] ++ [(INFO, Step3Loading)]
                    ++ [(INFO, ClearingExisting)]))
      as (w' & Hrun & Hc & Ht & Hco & Hcn); [by rewrite take_nil|].
    exists w'. split.
    + rewrite <- Hrun. cbv [bind info modify add_log external cursor_execute
        add_call set_table faults data_url source upcast_none top_towns
        table cursor_open conn_open calls log].
      by rewrite <- !app_assoc.
    + rewrite Hc, Ht, Hco, Hcn, <- !list_fmap_compose. simpl.
      rewrite <- ?app_assoc. done.
  - rewrite Nat.add_comm in Hok. simpl in Hok. by inversion Hok.
  - rewrite Nat.add_comm in Hok. simpl in Hok.
    inversion Hok as [|? ? _ Hok']. subst.
    destruct (Hloop fs 0 [] (cl ++ [Execute TruncateRawSales])
                (lg ++ [(INFO, Rule)] ++ [(INFO, Step3Loading)]
                    ++ [(INFO, ClearingExisting)]))
      as (w' & Hrun & Hc & Ht & Hco & Hcn).
    { by rewrite Nat.add_comm. }
    exists w'. split.
    + rewrite <- Hrun. cbv [bind info modify add_log external cursor_execute
        add_call set_table set_faults faults data_url source upcast_none
        top_towns table cursor_open conn_open calls log].
      by rewrite <- !app_assoc.
    + rewrite Hc, Ht, Hco, Hcn, <- !list_fmap_compose. simpl.
      rewrite <- ?app_assoc. done.
Qed.

End LoaderCalls.

Section CleanCells.
Import Py Frame World CTRealEstateIngestion Samples.




End CleanCells.

(** ** The load stage *)

Section Load.
Import Py Frame World CTRealEstateIngestion Samples.


(** What the loader writes for one field: the text of the value when the
    value is truthy, the empty string for every falsy value. *)
Lemma field_text_truthy (df : DataFrame) (row : Row) (name : string) :
  field_text df row name
  = let v := row_get df row name (VStr "") in
    if truthy v then str v else "".
Proof. unfold field_text, or_. by destruct (truthy _). Qed.

(** C4 at a record whose sale amount is zero: the field is present and its
    text is ["0"], yet the tuple built by the loader holds the empty string
    in the seventh place, and this is what reaches the insert. *)
Theorem load_writes_zero_as_empty :
  row_get sales [VInt 200178; VNone; VInt 0; VFloat "0.5"; VStr ""] "Sale Amount"
    (VStr "") = VInt 0
  ∧ str (VInt 0) = "0"
  ∧ value_tuple sales [VInt 200178; VNone; VInt 0; VFloat "0.5"; VStr ""] !! 6%nat
    = Some ""
  ∧ (load_to_bronze
       (mkFrame (columns sales) [[VInt 200178; VNone; VInt 0; VFloat "0.5"; VStr ""]])
       5000 (quiet sales false)).1 = Returned tt
  ∧ calls (load_to_bronze
             (mkFrame (columns sales)
                [[VInt 200178; VNone; VInt 0; VFloat "0.5"; VStr ""]])
             5000 (quiet sales false)).2
    = [ Execute TruncateRawSales;
        ExecuteMany InsertRawSales
          [["200178"; ""; ""; ""; ""; ""; ""; "0.5"; ""; ""; ""; ""; ""; ""]];
        Commit ].
Proof. repeat split; vm_compute; reflexivity. Qed.

(** C9.  On a frame without records the loader truncates the table, sends
    no insert, commits, logs an inserted count of 0 and returns normally;
    the table is empty afterwards. *)
Theorem load_empty_dataset (df : DataFrame) (batch_size : Z) (w : World) :
  rows df = [] →
  batch_size ≠ 0 →
  no_fault 2 w →
  ∃ w' : World,
    load_to_bronze df batch_size w = (Returned tt, w')
    ∧ calls w' = calls w ++ [Execute TruncateRawSales; Commit]
    ∧ table w' = []
    ∧ log w' = log w ++ [ (INFO, Rule); (INFO, Step3Loading);
                          (INFO, ClearingExisting);
                          (INFO, LoadedToBronze 0) ].
Proof.
  intros Hrows Hb Hok.
  assert (Hrange : range 0 (len df) batch_size = Some []).
  { unfold range, len. rewrite Hrows. simpl.
    destruct (Z.eqb_spec batch_size 0); [done|].
    unfold range_len. by destruct (0 <? batch_size). }
  unfold load_to_bronze. rewrite Hrange.
  destruct w as [url src up towns fs tbl co cn cl lg].
  unfold no_fault in Hok. simpl in Hok.
  destruct fs as [|[e|] fs].
  - eexists. split; [reflexivity|]. simpl.
    by rewrite <- !app_assoc.
  - by inversion Hok.
  - destruct fs as [|[e|] fs].
    + eexists. split; [reflexivity|]. simpl. by rewrite <- !app_assoc.
    + inversion Hok as [|? ? _ Hok']. by inversion Hok'.
    + eexists. split; [reflexivity|]. simpl. by rewrite <- !app_assoc.
Qed.

Lemma load_empty_dataset_witness :
  ∃ w' : World,
    load_to_bronze (mkFrame (columns sales) []) 5000 (quiet sales false)
    = (Returned tt, w')
    ∧ calls w'
      = calls (quiet sales false) ++ [Execute TruncateRawSales; Commit]
    ∧ table w' = []
    ∧ log w' = log (quiet sales false)
               ++ [ (INFO, Rule); (INFO, Step3Loading);
                    (INFO, ClearingExisting); (INFO, LoadedToBronze 0) ].
Proof.
  apply (load_empty_dataset (mkFrame (columns sales) []) 5000
           (quiet sales false)).
  - reflexivity.
  - lia.
  - unfold no_fault. simpl. constructor.
Defined.

End Load.

(** ** The download stage *)

Section Download.
Import Py Frame World CTRealEstateIngestion Samples.

(** With a limit that is not zero and a source that answers, the download
    stage returns [head] of the source. *)
Lemma download_data_limited (n : Z) (w : World) :
  n ≠ 0 → no_fault 3 w →
  returns (download_data (Some n)) w (head (source w) n).
Proof.
  intros Hn Hok. unfold returns, download_data.
  destruct w as [url src up towns fs tbl co cn cl lg].
  unfold no_fault in Hok. simpl in Hok.
  destruct n as [|p|p]; [done| |];
  destruct fs as [|[e|] [|[e'|] [|[e''|] fs]]]; simpl in Hok;
    repeat match goal with
      | H : Forall _ (_ :: _) |- _ => inversion H; clear H; subst
      end; try discriminate; reflexivity.
Qed.

Lemma head_length (df : DataFrame) (n : Z) :
  0 ≤ n → len (head df n) = Z.min n (len df).
Proof.
  intros Hn. unfold head, len. simpl.
  destruct (Z.leb_spec 0 n); [|lia].
  rewrite length_take. lia.
Qed.

(** C5 at a limit of zero: the source holds three records and
    [download_data(limit=0)] returns all three, where the first
    [min(0, 3) = 0] records are none. *)
Theorem download_limit_zero_returns_all :
  returns (download_data (Some 0)) (quiet sales false) sales
  ∧ len sales = 3
  ∧ Z.min 0 (len sales) = 0
  ∧ rows (head sales 0) = [].
Proof. repeat split; vm_compute; reflexivity. Qed.

End Download.

(** ** The orchestrator *)

Section Pipeline.
Import Py Frame World CTRealEstateIngestion Samples.

(** C6.  Whatever the source and the warehouse do, [run_pipeline] ends
    with the cursor and the connection closed, the two [close] calls being
    the last ones issued.  When the stages return, it returns; when a stage
    raises [e], the failure banner and [e] are logged at level ERROR after
    everything the stages logged, and the same [e] is raised to the
    caller. *)
Theorem run_pipeline_releases (limit : option Z) (w : World) :
  ∃ (r r0 : outcome unit) (w' w1 : World),
    run_pipeline limit w = (r, w')
    ∧ pipeline_body limit w = (r0, w1)
    ∧ cursor_open w' = false
    ∧ conn_open w' = false
    ∧ calls w' = calls w1 ++ [CursorClose; ConnClose]
    ∧ match r0 with
      | Returned _ => r = Returned tt ∧ log w' = log w1
      | Raised e =>
          r = Raised e
          ∧ log w' = log w1 ++ [ (ERROR, Rule); (ERROR, PipelineFailed);
                                 (ERROR, ErrorLine e); (ERROR, Rule) ]
      end.
Proof.
  unfold run_pipeline, finally, try_except.
  destruct (pipeline_body limit w) as [[[]|e] w1] eqn:Hbody.
  - eexists _, _, _, _. split; [reflexivity|]. split; [reflexivity|].
    simpl. by rewrite <- !app_assoc.
  - eexists _, _, _, _. split; [reflexivity|]. split; [reflexivity|].
    simpl. by rewrite <- !app_assoc.
Qed.

(** The scenario of a download that times out: nothing is sent to the
    warehouse, both handles are closed, the error is raised to the caller
    and the banner is logged once. *)
Example download_timeout_scenario :
  let e := mkExn "Timeout" "read timed out" in
  let end_ := run_pipeline (Some 10000) (scripted sales [Some e]) in
  end_.1 = Raised e
  ∧ calls end_.2 = [CursorClose; ConnClose]
  ∧ cursor_open end_.2 = false
  ∧ conn_open end_.2 = false
  ∧ table end_.2 = table (quiet sales false)
  ∧ log end_.2
    = [ (INFO, Rule); (INFO, PipelineTitle); (INFO, Rule);
        (INFO, Rule); (INFO, Step1Downloading);
        (INFO, Url (data_url (quiet sales false)));
        (ERROR, ErrorDownloading e);
        (ERROR, Rule); (ERROR, PipelineFailed);
        (ERROR, ErrorLine e); (ERROR, Rule) ].
Proof. repeat split; vm_compute; reflexivity. Qed.

End Pipeline.

(** ** The connectivity check *)

Section ConnectivityCheck.
Import Py World TestConnection Samples.

Lemma is_set_unset (env : gmap string string) v :
  getenv env v = None → is_set env v = false.
Proof. unfold is_set. by intros ->. Qed.

Lemma elem_of_missing (env : gmap string string) v :
  v ∈ missing env ↔ v ∈ required_vars ∧ is_set env v = false.
Proof. unfold missing. rewrite list_elem_of_filter. tauto. Qed.

(** Once a name is missing the script prints the report and stops with
    status 1; no event of the run is a connection attempt. *)
Lemma main_missing (env : gmap string string) fs identity :
  missing env ≠ [] →
  (main env fs identity).2 = 1
  ∧ (∀ a, Connect a ∉ (main env fs identity).1)
  ∧ PrintLine (join ", " (missing env)) ∈ (main env fs identity).1.
Proof.
  intros Hm. unfold main. destruct (missing env) as [|m ms] eqn:E; [done|].
  cbn [fst snd]. split; [done|]. split.
  - intros a Ha. cbn [required_vars fmap list_fmap app] in Ha.
    repeat (apply elem_of_cons in Ha as [Ha|Ha]; [discriminate Ha|]).
    by apply elem_of_nil in Ha.
  - apply elem_of_cons. right. apply elem_of_app. right.
    apply elem_of_cons. right. apply elem_of_cons. by left.
Qed.



Lemma is_set_empty_or_unset (env : gmap string string) v x :
  is_set (<[v := ""]> env) x = is_set (delete v env) x.
Proof.
  unfold is_set, getenv. destruct (decide (v = x)) as [->|Hne].
  - by rewrite lookup_insert_eq, lookup_delete_eq.
  - by rewrite lookup_insert_ne, lookup_delete_ne.
Qed.

(** C10.  A required value that is set to the empty string is classified
    like one that is not set at all: the list of missing names is the same
    in both environments and contains the name, and both runs end with
    status 1 without a connection attempt. *)
Theorem empty_value_is_missing (env : gmap string string) (v : string)
    (fs : list (option exn)) (identity : string * string * string) :
  v ∈ required_vars →
  missing (<[v := ""]> env) = missing (delete v env)
  ∧ v ∈ missing (<[v := ""]> env)
  ∧ v ∈ missing (delete v env)
  ∧ (main (<[v := ""]> env) fs identity).2 = 1
  ∧ (main (delete v env) fs identity).2 = 1
  ∧ (∀ a, Connect a ∉ (main (<[v := ""]> env) fs identity).1)
  ∧ (∀ a, Connect a ∉ (main (delete v env) fs identity).1).
Proof.
  intros Hv.
  assert (Heq : missing (<[v := ""]> env) = missing (delete v env)).
  { unfold missing. apply list_filter_iff. intros x.
    by rewrite is_set_empty_or_unset. }
  assert (Hin : v ∈ missing (delete v env)).
  { apply elem_of_missing. split; [done|].
    apply is_set_unset. apply lookup_delete_eq. }
  assert (Hne : missing (delete v env) ≠ []).
  { intros E. rewrite E in Hin. by apply elem_of_nil in Hin. }
  destruct (main_missing (delete v env) fs identity Hne) as (H1 & H2 & _).
  rewrite <- Heq in Hne.
  destruct (main_missing (<[v := ""]> env) fs identity Hne) as (H3 & H4 & _).
  rewrite Heq. done.
Qed.

Lemma empty_value_is_missing_witness :
  missing (<["SNOWFLAKE_USER" := ""]> env_without_password)
  = missing (delete "SNOWFLAKE_USER" env_without_password)
  ∧ "SNOWFLAKE_USER" ∈ missing (<["SNOWFLAKE_USER" := ""]> env_without_password)
  ∧ "SNOWFLAKE_USER" ∈ missing (delete "SNOWFLAKE_USER" env_without_password)
  ∧ (main (<["SNOWFLAKE_USER" := ""]> env_without_password) []
       ("8.1", "CT_REAL_ESTATE", "etl")).2 = 1
  ∧ (main (delete "SNOWFLAKE_USER" env_without_password) []
       ("8.1", "CT_REAL_ESTATE", "etl")).2 = 1
  ∧ (∀ a, Connect a
          ∉ (main (<["SNOWFLAKE_USER" := ""]> env_without_password) []
               ("8.1", "CT_REAL_ESTATE", "etl")).1)
  ∧ (∀ a, Connect a
          ∉ (main (delete "SNOWFLAKE_USER" env_without_password) []
               ("8.1", "CT_REAL_ESTATE", "etl")).1).
Proof.
  apply (empty_value_is_missing env_without_password "SNOWFLAKE_USER" []
           ("8.1", "CT_REAL_ESTATE", "etl")).
  unfold required_vars. apply list_elem_of_further, list_elem_of_here.
Defined.

End ConnectivityCheck.

(** ** Runs of the stages *)

Section StageRuns.
Import Py Frame World CTRealEstateIngestion Samples Runs.

Ltac world_simpl :=
  cbv [add_call add_log set_table set_faults set_cursor_open set_conn_open];
  cbn [data_url source upcast_none top_towns faults table cursor_open
       conn_open calls log].

Lemma bind_info {A} (m : message) (k : unit → M A) w :
  bind (info m) k w = k tt (add_log INFO m w).
Proof. done. Qed.

Lemma bind_modify {A} (f : World → World) (k : unit → M A) w :
  bind (modify f) k w = k tt (f w).
Proof. done. Qed.

Lemma bind_get {A} (k : World → M A) w : bind get k w = k w w.
Proof. done. Qed.

Lemma bind_ret {A B} (a : A) (k : A → M B) w : bind (ret a) k w = k a w.
Proof. done. Qed.

Lemma external_ok url src up towns fs tbl co cn cl lg :
  Forall (λ f, f = None) (take 1 fs) →
  external (mkWorld url src up towns fs tbl co cn cl lg)
  = (Returned tt, mkWorld url src up towns (drop 1 fs) tbl co cn cl lg).
Proof.
  destruct fs as [|[e|] fs]; simpl; intros H; try done.
  by inversion H.
Qed.

Lemma bind_external_ok {A} (k : unit → M A) url src up towns fs tbl co cn
    cl lg :
  Forall (λ f, f = None) (take 1 fs) →
  bind external k (mkWorld url src up towns fs tbl co cn cl lg)
  = k tt (mkWorld url src up towns (drop 1 fs) tbl co cn cl lg).
Proof. intros H. unfold bind. by rewrite external_ok. Qed.

Lemma Forall_take_drop {A} (P : A → Prop) (n m : nat) (l : list A) :
  Forall P (take (n + m) l) → Forall P (take m (drop n l)).
Proof.
  rewrite <- take_take_drop. intros H. by apply Forall_app in H as [_ H].
Qed.

Lemma bind_assoc {A B C} (m : M A) (k : A → M B) (k' : B → M C) w :
  bind (bind m k) k' w = bind m (λ a, bind (k a) k') w.
Proof. unfold bind. by destruct (m w) as [[a|e] w1]. Qed.

Lemma for_each_app {A B} (xs ys : list A) (acc : B) (body : B → A → M B) w :
  for_each (xs ++ ys) acc body w
  = bind (for_each xs acc body) (λ acc', for_each ys acc' body) w.
Proof.
  revert acc w. induction xs as [|x xs IH]; intros acc w; [done|].
  cbn [app for_each]. unfold bind.
  destruct (body acc x w) as [[a|e] w1]; [|done].
  rewrite IH. done.
Qed.

(** The loop, the commit and the closing log line of the loader on a
    warehouse that accepts them. *)
Lemma load_loop_commit (df : DataFrame) (b : Z) (starts : list Z)
    acc url src up towns fs tbl co cn cl lg :
  Forall (λ f, f = None) (take (length starts + 1) fs) →
  bind (for_each starts acc (load_batch df b))
    (λ n, bind conn_commit (λ _, info (LoadedToBronze n)))
    (mkWorld url src up towns fs tbl co cn cl lg)
  = (Returned tt,
     mkWorld url src up towns (drop (length starts + 1) fs)
       (tbl ++ mjoin ((λ s, batch_values (batch_at df b s)) <$> starts))
       co cn
       (cl ++ ((λ s, ExecuteMany InsertRawSales
                       (batch_values (batch_at df b s))) <$> starts)
           ++ [Commit])
       (lg ++ ((λ s, (INFO, Progress (Z.min (s + b) (len df)) (len df)))
                 <$> starts)
           ++ [(INFO, LoadedToBronze
                        (acc + Z.of_nat
                                 (length (mjoin ((λ s, batch_values
                                                         (batch_at df b s))
                                                   <$> starts)))))])).
Proof.
  intros Hok. unfold bind at 1.
  rewrite for_each_load_batch
    by (eapply Forall_take_weaken; [|exact Hok]; lia).
  unfold conn_commit. rewrite bind_assoc.
  rewrite bind_external_ok by by apply Forall_take_drop.
  rewrite bind_modify. unfold info, modify. world_simpl.
  by rewrite drop_drop, <- ?app_assoc.
Qed.

(** The complete run of the loader for a non-zero batch size. *)
Lemma load_to_bronze_run (df : DataFrame) (b : Z) (starts : list Z)
    url src up towns fs tbl co cn cl lg :
  range 0 (len df) b = Some starts →
  Forall (λ f, f = None) (take (length starts + 2) fs) →
  load_to_bronze df b (mkWorld url src up towns fs tbl co cn cl lg)
  = (Returned tt,
     mkWorld url src up towns (drop (length starts + 2) fs)
       (mjoin ((λ s, batch_values (batch_at df b s)) <$> starts))
       co cn
       (cl ++ [Execute TruncateRawSales]
           ++ ((λ s, ExecuteMany InsertRawSales
                       (batch_values (batch_at df b s))) <$> starts)
           ++ [Commit])
       (lg ++ [(INFO, Rule); (INFO, Step3Loading); (INFO, ClearingExisting)]
           ++ ((λ s, (INFO, Progress (Z.min (s + b) (len df)) (len df)))
                 <$> starts)
           ++ [(INFO, LoadedToBronze
                        (Z.of_nat
                           (length (mjoin ((λ s, batch_values
                                                   (batch_at df b s))
                                             <$> starts)))))])).
Proof.
  intros Hr Hok. unfold load_to_bronze. rewrite Hr.
  rewrite !bind_info. unfold cursor_execute. rewrite bind_assoc.
  world_simpl.
  rewrite bind_external_ok
    by (eapply Forall_take_weaken; [|exact Hok]; lia).
  rewrite bind_modify. world_simpl.
  rewrite load_loop_commit.
  - rewrite drop_drop, <- !app_assoc.
    replace (1 + (length starts + 1))%nat with (length starts + 2)%nat by lia.
    done.
  - apply Forall_take_drop.
    replace (1 + (length starts + 1))%nat with (length starts + 2)%nat by lia.
    done.
Qed.

Lemma fmap_mjoin {A B} (f : A → B) (ls : list (list A)) :
  f <$> mjoin ls = mjoin (fmap f <$> ls).
Proof.
  induction ls as [|l ls IH]; [done|].
  change (f <$> l ++ mjoin ls = (f <$> l) ++ mjoin (fmap f <$> ls)).
  by rewrite fmap_app, IH.
Qed.

(** For a positive batch size the rows of the batches, in order, are the
    rows of the frame. *)
Lemma starts_cover_rows (df : DataFrame) (b : Z) (starts : list Z) :
  0 < b →
  range 0 (len df) b = Some starts →
  mjoin ((λ s, rows (batch_at df b s)) <$> starts) = rows df.
Proof.
  intros Hb Hr. unfold range in Hr.
  destruct (Z.eqb_spec b 0) as [|_]; [lia|]. injection Hr as <-.
  destruct (range_len_bounds (len df) b Hb) as (Hk0 & Hcover & Hlast);
    [unfold len; lia|].
  rewrite <- list_fmap_compose.
  etrans; [apply (slices_join (rows df) b _ Hb)|].
  - unfold len in *. lia.
  - apply take_ge. unfold len in *. lia.
Qed.

Lemma batch_values_cover (df : DataFrame) (b : Z) (starts : list Z) :
  0 < b →
  range 0 (len df) b = Some starts →
  mjoin ((λ s, batch_values (batch_at df b s)) <$> starts)
  = value_tuple df <$> rows df.
Proof.
  intros Hb Hr.
  transitivity (value_tuple df
                  <$> mjoin ((λ s, rows (batch_at df b s)) <$> starts));
    [|by rewrite (starts_cover_rows df b starts Hb Hr)].
  by rewrite fmap_mjoin, <- list_fmap_compose.
Qed.

(** X1.  For a positive batch size and a warehouse that accepts every
    call, the loader leaves in the table exactly one tuple per record of the
    frame, in the order of the frame, whatever the table held before; the
    inserted count it logs last is the number of records. *)
Theorem load_to_bronze_replaces_table (df : DataFrame) (b : Z) (w : World) :
  0 < b →
  no_fault (Z.to_nat (range_len 0 (len df) b) + 2) w →
  ∃ w' : World,
    load_to_bronze df b w = (Returned tt, w')
    ∧ table w' = value_tuple df <$> rows df
    ∧ length (table w') = length (rows df)
    ∧ last (log w') = Some (INFO, LoadedToBronze (len df)).
Proof.
  intros Hb Hok.
  destruct (range 0 (len df) b) as [starts|] eqn:Hr; cycle 1.
  { unfold range in Hr. destruct (Z.eqb_spec b 0); [lia|done]. }
  assert (Hlen : length starts = Z.to_nat (range_len 0 (len df) b)).
  { unfold range in Hr. destruct (Z.eqb_spec b 0); [lia|].
    injection Hr as <-. by rewrite length_fmap, length_seq. }
  destruct w as [url src up towns fs tbl co cn cl lg].
  unfold no_fault in Hok. cbn [faults] in Hok. rewrite <- Hlen in Hok.
  rewrite (load_to_bronze_run df b starts) by done.
  eexists. split; [done|]. cbn [table log].
  rewrite (batch_values_cover df b starts Hb Hr).
  split; [done|]. split; [by rewrite length_fmap|].
  rewrite !app_assoc, last_snoc. do 3 f_equal.
  unfold len. by rewrite length_fmap.
Qed.

Lemma load_to_bronze_replaces_table_witness :
  ∃ w' : World,
    load_to_bronze sales 2 (quiet sales false) = (Returned tt, w')
    ∧ table w' = value_tuple sales <$> rows sales
    ∧ length (table w') = length (rows sales)
    ∧ last (log w') = Some (INFO, LoadedToBronze (len sales)).
Proof.
  apply (load_to_bronze_replaces_table sales 2 (quiet sales false)).
  - lia.
  - unfold no_fault. simpl. constructor.
Defined.

(** X2.  When the warehouse rejects the insert of batch number [k] (after
    accepting the truncate and the [k] inserts before it), the loader
    raises that error without ever committing: the calls it has made are the
    truncate and the first [k] inserts, and the table holds the tuples of
    the first [k] batches only. *)
Theorem load_to_bronze_partial (df : DataFrame) (b : Z) (w : World)
    (bs : list DataFrame) (k : nat) (e : exn) (rest : list (option exn)) :
  batches df b = Some bs →
  (k < length bs)%nat →
  faults w = replicate (S k) None ++ Some e :: rest →
  ∃ w' : World,
    load_to_bronze df b w = (Raised e, w')
    ∧ calls w'
      = calls w ++ Execute TruncateRawSales
          :: (ExecuteMany InsertRawSales ∘ batch_values <$> take k bs)
    ∧ table w' = mjoin (batch_values <$> take k bs)
    ∧ faults w' = rest.
Proof.
  intros Hbs Hk Hf. unfold batches in Hbs.
  destruct (range 0 (len df) b) as [starts|] eqn:Hr; [|done].
  simpl in Hbs. injection Hbs as <-. rewrite length_fmap in Hk.
  destruct w as [url src up towns fs tbl co cn cl lg].
  cbn [faults] in Hf. subst fs.
  unfold load_to_bronze. rewrite Hr.
  rewrite !bind_info. unfold cursor_execute. rewrite bind_assoc.
  world_simpl.
  rewrite bind_external_ok by (cbn; by constructor).
  rewrite bind_modify. world_simpl. cbn [replicate app drop].
  rewrite drop_0.
  destruct (lookup_lt_is_Some_2 starts k Hk) as [s Hs].
  destruct (list_elem_of_split_length starts k s Hs)
    as (pre & post & -> & ->).
  unfold bind at 1. rewrite for_each_app. unfold bind at 1.
  rewrite for_each_load_batch; cycle 1.
  { rewrite take_app_length' by by rewrite length_replicate.
    by apply Forall_replicate. }
  rewrite drop_app_length' by by rewrite length_replicate.
  eexists. split; [reflexivity|]. cbn [calls table faults].
  rewrite fmap_app, take_app_length' by by rewrite length_fmap.
  rewrite <- !list_fmap_compose, <- app_assoc. done.
Qed.

Lemma load_to_bronze_partial_witness :
  ∃ w' : World,
    load_to_bronze sales 2
      (scripted sales [None; None; Some (mkExn "ProgrammingError" "x")])
    = (Raised (mkExn "ProgrammingError" "x"), w')
    ∧ calls w'
      = calls (scripted sales
                 [None; None; Some (mkExn "ProgrammingError" "x")])
          ++ Execute TruncateRawSales
          :: (ExecuteMany InsertRawSales ∘ batch_values
                <$> take 1 [batch_at sales 2 0; batch_at sales 2 2])
    ∧ table w'
      = mjoin (batch_values
                 <$> take 1 [batch_at sales 2 0; batch_at sales 2 2])
    ∧ faults w' = [].
Proof.
  apply (load_to_bronze_partial sales 2
           (scripted sales [None; None; Some (mkExn "ProgrammingError" "x")])
           [batch_at sales 2 0; batch_at sales 2 2] 1
           (mkExn "ProgrammingError" "x") []).
  - reflexivity.
  - simpl. lia.
  - reflexivity.
Defined.

(** X3.  With a batch size of zero the loader truncates the table and then
    raises [ValueError]: the table is left empty, nothing is inserted and
    nothing is committed. *)
Theorem load_to_bronze_zero_batch_size (df : DataFrame) (w : World) :
  no_fault 1 w →
  ∃ (w' : World) (msg : string),
    load_to_bronze df 0 w = (Raised (mkExn "ValueError" msg), w')
    ∧ calls w' = calls w ++ [Execute TruncateRawSales]
    ∧ table w' = [].
Proof.
  intros Hok. destruct w as [url src up towns fs tbl co cn cl lg].
  unfold no_fault in Hok. cbn [faults] in Hok.
  unfold load_to_bronze. cbn [range Z.eqb].
  rewrite !bind_info. unfold cursor_execute. rewrite bind_assoc.
  world_simpl. rewrite bind_external_ok by done.
  rewrite bind_modify. world_simpl.
  eexists _, _. split; [reflexivity|]. done.
Qed.

Lemma load_to_bronze_zero_batch_size_witness :
  ∃ (w' : World) (msg : string),
    load_to_bronze sales 0 (quiet sales false)
    = (Raised (mkExn "ValueError" msg), w')
    ∧ calls w' = calls (quiet sales false) ++ [Execute TruncateRawSales]
    ∧ table w' = [].
Proof.
  apply (load_to_bronze_zero_batch_size sales (quiet sales false)).
  unfold no_fault. simpl. constructor.
Defined.

(** X4.  When one of the three steps of the download (request, status
    check, parsing) raises, the pipeline raises the same error and has sent
    nothing to the warehouse: the only calls are the two [close] calls and
    the table still holds what it held before the run. *)
Theorem download_failure_touches_nothing (limit : option Z) (w : World)
    (k : nat) (e : exn) (rest : list (option exn)) :
  (k < 3)%nat →
  faults w = replicate k None ++ Some e :: rest →
  ∃ w' : World,
    run_pipeline limit w = (Raised e, w')
    ∧ calls w' = calls w ++ [CursorClose; ConnClose]
    ∧ table w' = table w
    ∧ cursor_open w' = false
    ∧ conn_open w' = false
    ∧ (ERROR, ErrorDownloading e) ∈ log w'
    ∧ (ERROR, PipelineFailed) ∈ log w'.
Proof.
  intros Hk Hf. destruct w as [url src up towns fs tbl co cn cl lg].
  cbn [faults] in Hf. subst fs.
  assert (Hrun :
    run_pipeline limit
      (mkWorld url src up towns (replicate k None ++ Some e :: rest) tbl co
         cn cl lg)
    = (Raised e,
       mkWorld url src up towns rest tbl false false
         (foldl (λ l x, l ++ [x]) cl [CursorClose; ConnClose])
         (foldl (λ l x, l ++ [x]) lg
            [ (INFO, Rule); (INFO, PipelineTitle); (INFO, Rule);
              (INFO, Rule); (INFO, Step1Downloading); (INFO, Url url);
              (ERROR, ErrorDownloading e);
              (ERROR, Rule); (ERROR, PipelineFailed);
              (ERROR, ErrorLine e); (ERROR, Rule) ]))).
  { destruct k as [|[|[|k]]]; [| | |lia]; vm_compute; reflexivity. }
  rewrite Hrun. eexists. split; [reflexivity|].
  cbn [calls table cursor_open conn_open log foldl].
  repeat rewrite <- app_assoc.
  repeat split; try done;
    apply elem_of_app; right;
    repeat first [apply list_elem_of_here | apply list_elem_of_further].
Qed.

Lemma download_failure_touches_nothing_witness :
  ∃ w' : World,
    run_pipeline (Some 10000)
      (scripted sales [None; Some (mkExn "HTTPError" "503")])
    = (Raised (mkExn "HTTPError" "503"), w')
    ∧ calls w'
      = calls (scripted sales [None; Some (mkExn "HTTPError" "503")])
          ++ [CursorClose; ConnClose]
    ∧ table w'
      = table (scripted sales [None; Some (mkExn "HTTPError" "503")])
    ∧ cursor_open w' = false
    ∧ conn_open w' = false
    ∧ (ERROR, ErrorDownloading (mkExn "HTTPError" "503")) ∈ log w'
    ∧ (ERROR, PipelineFailed) ∈ log w'.
Proof.
  apply (download_failure_touches_nothing (Some 10000)
           (scripted sales [None; Some (mkExn "HTTPError" "503")]) 1
           (mkExn "HTTPError" "503") []).
  - lia.
  - reflexivity.
Defined.

Lemma bind_returned {A B} (m : M A) (k : A → M B) w a w1 :
  m w = (Returned a, w1) → bind m k w = k a w1.
Proof. unfold bind. by intros ->. Qed.

Ltac faults_ok H :=
  first
    [ eapply Forall_take_weaken; [|exact H]; lia
    | apply Forall_take_drop; eapply Forall_take_weaken; [|exact H];
      simpl; lia ].

Ltac find_in :=
  solve [ apply list_elem_of_here
        | apply list_elem_of_further; find_in
        | apply elem_of_app; left; find_in
        | apply elem_of_app; right; find_in ].

Ltac mstep H :=
  first
    [ rewrite bind_assoc
    | rewrite bind_info
    | rewrite bind_modify
    | rewrite bind_get
    | rewrite bind_ret
    | rewrite bind_external_ok by faults_ok H ];
  world_simpl; rewrite ?drop_drop; cbn [Nat.add].

Lemma for_each_info {A} (xs : list A) (f : A → message)
    url src up towns fs tbl co cn cl lg :
  for_each xs tt (λ _ x, info (f x))
    (mkWorld url src up towns fs tbl co cn cl lg)
  = (Returned tt,
     mkWorld url src up towns fs tbl co cn cl
       (lg ++ ((λ x, (INFO, f x)) <$> xs))).
Proof.
  revert lg. induction xs as [|x xs IH]; intros lg.
  - cbn. by rewrite app_nil_r.
  - cbn [for_each]. rewrite bind_info. world_simpl. rewrite IH.
    by rewrite <- app_assoc.
Qed.

(** The verify stage on a warehouse that answers its four calls. *)
Lemma verify_load_run url src up towns fs tbl co cn cl lg :
  Forall (λ f, f = None) (take 4 fs) →
  verify_load (mkWorld url src up towns fs tbl co cn cl lg)
  = (Returned tt,
     mkWorld url src up towns (drop 4 fs) tbl co cn
       (cl ++ [Execute CountRawSales; FetchOne; Execute TopTowns; FetchAll])
       (lg ++ [ (INFO, Rule); (INFO, Step4Verifying);
                (INFO, TotalInBronze (Z.of_nat (length tbl)));
                (INFO, TopFiveHeader) ]
           ++ ((λ t, (INFO, TownSales t.1 t.2)) <$> towns))).
Proof.
  intros Hok. unfold verify_load, cursor_execute, cursor_fetchone_count,
    cursor_fetchall_towns.
  do 24 (try mstep Hok).
  rewrite for_each_info. by repeat rewrite <- app_assoc.
Qed.

Lemma first_fault (n : nat) (fs : list (option exn)) :
  Forall (λ f, f = None) (take n fs)
  ∨ ∃ (k : nat) (e : exn) (rest : list (option exn)),
      (k < n)%nat ∧ fs = replicate k None ++ Some e :: rest.
Proof.
  revert fs. induction n as [|n IH]; intros fs; [left; constructor|].
  destruct fs as [|[e|] fs].
  - left. constructor.
  - right. exists 0%nat, e, fs. split; [lia|done].
  - destruct (IH fs) as [Hok|(k & e & rest & Hk & ->)].
    + left. by constructor.
    + right. exists (S k), e, rest. split; [lia|done].
Qed.

(** The verify stage when its call number [k] is rejected. *)
Lemma verify_load_fails url src up towns k e rest tbl co cn cl lg :
  (k < 4)%nat →
  verify_load
    (mkWorld url src up towns (replicate k None ++ Some e :: rest) tbl co cn
       cl lg)
  = (Raised e,
     mkWorld url src up towns rest tbl co cn
       (foldl (λ l x, l ++ [x]) cl
          (take k [Execute CountRawSales; FetchOne; Execute TopTowns;
                   FetchAll]))
       (foldl (λ l x, l ++ [x]) lg [(INFO, Rule); (INFO, Step4Verifying)])).
Proof.
  intros Hk. destruct k as [|[|[|[|k]]]]; [| | | |lia];
    vm_compute; reflexivity.
Qed.

Lemma foldl_snoc {A} (l xs : list A) : foldl (λ l x, l ++ [x]) l xs = l ++ xs.
Proof.
  revert l. induction xs as [|x xs IH]; intros l; simpl.
  - by rewrite app_nil_r.
  - by rewrite IH, <- app_assoc.
Qed.

(** X5.  The verify stage only observes: whatever the warehouse answers,
    the table and the two handles are as before, and the calls it has added
    are an initial part of count query, fetch, top-towns query, fetch --
    never a truncate, an insert or a commit. *)
Theorem verify_load_observes (w : World) :
  ∃ k : nat,
    table (verify_load w).2 = table w
    ∧ cursor_open (verify_load w).2 = cursor_open w
    ∧ conn_open (verify_load w).2 = conn_open w
    ∧ calls (verify_load w).2
      = calls w ++ take k [ Execute CountRawSales; FetchOne;
                            Execute TopTowns; FetchAll ].
Proof.
  destruct w as [url src up towns fs tbl co cn cl lg].
  destruct (first_fault 4 fs) as [Hok|(k & e & rest & Hk & ->)].
  - exists 4%nat. by rewrite verify_load_run.
  - exists k. rewrite verify_load_fails by done. simpl.
    by rewrite foldl_snoc.
Qed.

Lemma download_data_run (limit : option Z) url src up towns fs tbl co cn cl
    lg :
  Forall (λ f, f = None) (take 3 fs) →
  ∃ lg',
    download_data limit (mkWorld url src up towns fs tbl co cn cl lg)
    = (Returned (limited src limit),
       mkWorld url src up towns (drop 3 fs) tbl co cn cl lg').
Proof.
  intros Hok.
  destruct limit as [[|p|p]|];
    destruct fs as [|[e|] [|[e'|] [|[e''|] fs]]]; simpl in Hok;
    repeat match goal with
      | H : Forall _ (_ :: _) |- _ => inversion H; clear H; subst
      end; try discriminate; eexists; reflexivity.
Qed.

Lemma clean_data_run (df : DataFrame) url src up towns fs tbl co cn cl lg :
  clean_data df (mkWorld url src up towns fs tbl co cn cl lg)
  = (Returned (cleaned up df),
     mkWorld url src up towns fs tbl co cn cl
       (lg ++ [ (INFO, Rule); (INFO, Step2Cleaning);
                (INFO, DataCleaned (len (cleaned up df))) ])).
Proof.
  unfold clean_data. do 4 (try mstep I). unfold info, modify, cleaned.
  world_simpl. by repeat rewrite <- app_assoc.
Qed.

(** The body of the orchestrator when nothing fails. *)
Lemma pipeline_body_run (limit : option Z) url src up towns fs tbl co cn cl
    lg :
  Forall (λ f, f = None) fs →
  let d := cleaned up (limited src limit) in
  ∃ fs' cl' lg',
    pipeline_body limit (mkWorld url src up towns fs tbl co cn cl lg)
    = (Returned tt,
       mkWorld url src up towns fs' (value_tuple d <$> rows d) co cn cl' lg')
    ∧ (INFO, LoadedToBronze (len d)) ∈ lg'
    ∧ (INFO, TotalInBronze (len d)) ∈ lg'
    ∧ (INFO, RecordsProcessed (len d)) ∈ lg'
    ∧ (INFO, PipelineCompleted) ∈ lg'.
Proof.
  intros Hall d.
  destruct (range 0 (len d) 5000) as [starts|] eqn:Hr; [|done].
  unfold pipeline_body. rewrite !bind_info. world_simpl.
  destruct (download_data_run limit url src up towns fs tbl co cn cl
              (((lg ++ [(INFO, Rule)]) ++ [(INFO, PipelineTitle)])
                 ++ [(INFO, Rule)])) as [lg1 Hd];
    [by apply Forall_take|].
  rewrite (bind_returned _ _ _ _ _ Hd).
  rewrite (bind_returned _ _ _ _ _ (clean_data_run _ _ _ _ _ _ _ _ _ _ _)).
  fold d.
  rewrite (bind_returned _ _ _ _ _
             (load_to_bronze_run d 5000 starts _ _ _ _ _ _ _ _ _ _ Hr
                (Forall_take _ _ _ (Forall_drop _ _ _ Hall)))).
  rewrite (bind_returned _ _ _ _ _
             (verify_load_run _ _ _ _ _ _ _ _ _ _
                (Forall_take _ _ _
                   (Forall_drop _ _ _ (Forall_drop _ _ _ Hall))))).
  rewrite !bind_info. unfold info, modify. world_simpl.
  rewrite (batch_values_cover d 5000 starts) by done.
  eexists _, _, _. split; [reflexivity|].
  rewrite length_fmap. fold (len d).
  repeat rewrite <- app_assoc.
  repeat split; find_in.
Qed.

Lemma run_pipeline_run (limit : option Z) url src up towns fs tbl co cn cl
    lg :
  Forall (λ f, f = None) fs →
  let d := cleaned up (limited src limit) in
  ∃ fs' cl' lg',
    run_pipeline limit (mkWorld url src up towns fs tbl co cn cl lg)
    = (Returned tt,
       mkWorld url src up towns fs' (value_tuple d <$> rows d) false false
         cl' lg')
    ∧ (INFO, LoadedToBronze (len d)) ∈ lg'
    ∧ (INFO, TotalInBronze (len d)) ∈ lg'
    ∧ (INFO, RecordsProcessed (len d)) ∈ lg'
    ∧ (INFO, PipelineCompleted) ∈ lg'.
Proof.
  intros Hall d.
  destruct (pipeline_body_run limit url src up towns fs tbl co cn cl lg Hall)
    as (fs' & cl' & lg' & Hbody & Hlog).
  fold d in Hbody, Hlog.
  unfold run_pipeline, finally, try_except. rewrite Hbody.
  eexists _, _, _. split; [reflexivity|]. exact Hlog.
Qed.

(** X6.  When neither the source nor the warehouse fails, the pipeline
    returns with both handles closed, and the table holds exactly one tuple
    per record of the frame that download followed by clean produces, in
    that order; the loader, the verify stage and the summary all log that
    number of records. *)
Theorem run_pipeline_loads_cleaned_download (limit : option Z) (w : World) :
  Forall (λ f, f = None) (faults w) →
  ∃ (d : DataFrame) (w' : World),
    returns (bind (download_data limit) clean_data) w d
    ∧ run_pipeline limit w = (Returned tt, w')
    ∧ table w' = value_tuple d <$> rows d
    ∧ cursor_open w' = false
    ∧ conn_open w' = false
    ∧ (INFO, LoadedToBronze (len d)) ∈ log w'
    ∧ (INFO, TotalInBronze (len d)) ∈ log w'
    ∧ (INFO, RecordsProcessed (len d)) ∈ log w'
    ∧ (INFO, PipelineCompleted) ∈ log w'.
Proof.
  intros Hall. destruct w as [url src up towns fs tbl co cn cl lg].
  cbn [faults] in Hall.
  destruct (run_pipeline_run limit url src up towns fs tbl co cn cl lg Hall)
    as (fs' & cl' & lg' & Hrun & Hlog).
  exists (cleaned up (limited src limit)). eexists.
  split; [|split; [exact Hrun|]].
  - unfold returns, download_data.
    destruct (download_data_run limit url src up towns fs tbl co cn cl lg)
      as [lg1 Hd]; [by apply Forall_take|].
    fold (download_data limit).
    by rewrite (bind_returned _ _ _ _ _ Hd), clean_data_run.
  - cbn [table cursor_open conn_open log].
    destruct Hlog as (H1 & H2 & H3 & H4). by repeat split.
Qed.

Lemma run_pipeline_loads_cleaned_download_witness :
  ∃ (d : DataFrame) (w' : World),
    returns (bind (download_data (Some 2)) clean_data) (quiet sales false) d
    ∧ run_pipeline (Some 2) (quiet sales false) = (Returned tt, w')
    ∧ table w' = value_tuple d <$> rows d
    ∧ cursor_open w' = false
    ∧ conn_open w' = false
    ∧ (INFO, LoadedToBronze (len d)) ∈ log w'
    ∧ (INFO, TotalInBronze (len d)) ∈ log w'
    ∧ (INFO, RecordsProcessed (len d)) ∈ log w'
    ∧ (INFO, PipelineCompleted) ∈ log w'.
Proof.
  apply (run_pipeline_loads_cleaned_download (Some 2) (quiet sales false)).
  constructor.
Defined.

End StageRuns.


(** ** More on the connectivity check *)

Section ConnectivityRuns.
Import Py World TestConnection Samples Runs.

Ltac find_mem :=
  solve [ apply list_elem_of_here
        | apply list_elem_of_further; find_mem ].

Lemma missing_nil_iff (env : gmap string string) :
  missing env = [] ↔ ∀ v, v ∈ required_vars → is_set env v = true.
Proof.
  split.
  - intros Hm v Hv. destruct (is_set env v) eqn:Hs; [done|].
    assert (Hin : v ∈ missing env) by by apply elem_of_missing.
    rewrite Hm in Hin. by apply elem_of_nil in Hin.
  - intros Hall. destruct (missing env) as [|v l] eqn:Hm; [done|].
    assert (Hin : v ∈ missing env) by (rewrite Hm; apply list_elem_of_here).
    apply elem_of_missing in Hin as [Hv Hs].
    rewrite (Hall v Hv) in Hs. done.
Qed.

(** X7.  The mask: whatever the environment holds, the only texts the
    check ever prints for the password are ten stars or NOT SET. *)
Theorem password_is_masked (env : gmap string string)
    (fs : list (option exn)) (identity : string * string * string)
    (s : string) :
  PrintVar "SNOWFLAKE_PASSWORD" s ∈ (main env fs identity).1 →
  s = "**********" ∨ s = "NOT SET".
Proof.
  assert (Hshown : shown env "SNOWFLAKE_PASSWORD" = "**********"
                   ∨ shown env "SNOWFLAKE_PASSWORD" = "NOT SET").
  { unfold shown. simpl. destruct (is_set env _); [by left|by right]. }
  assert (Hq : ∀ l, PrintVar "SNOWFLAKE_PASSWORD" s
                    ∉ connect_and_query env l identity).
  { intros l. unfold connect_and_query.
    destruct (next_fault l) as [[e1|] l1];
      [|destruct (next_fault l1) as [[e2|] l2];
        [|destruct (next_fault l2) as [[e3|] l3]]];
      unfold report_failure; intros H;
      repeat (apply elem_of_cons in H as [H|H]; [discriminate H|]);
      by apply elem_of_nil in H. }
  unfold main. intros H.
  assert (Hhead : PrintVar "SNOWFLAKE_PASSWORD" s
                  ∈ PrintTitle :: ((λ var, PrintVar var (shown env var))
                                     <$> required_vars) →
                  s = "**********" ∨ s = "NOT SET").
  { cbn [required_vars fmap list_fmap]. intros Hin.
    repeat (apply elem_of_cons in Hin as [Hin|Hin];
            [try discriminate Hin|]).
    - injection Hin as ->. exact Hshown.
    - by apply elem_of_nil in Hin. }
  destruct (missing env) as [|m ms]; cbn [fst] in H.
  - apply elem_of_app in H as [H|H]; [by apply Hhead|].
    apply elem_of_cons in H as [H|H]; [discriminate H|].
    by destruct (Hq fs).
  - apply elem_of_app in H as [H|H]; [by apply Hhead|].
    repeat (apply elem_of_cons in H as [H|H]; [discriminate H|]).
    by apply elem_of_nil in H.
Qed.

Lemma password_is_masked_witness :
  "NOT SET" = "**********" ∨ "NOT SET" = "NOT SET".
Proof.
  apply (password_is_masked env_without_password []
           ("8.1", "CT_REAL_ESTATE", "etl") "NOT SET").
  vm_compute. do 3 apply list_elem_of_further. apply list_elem_of_here.
Defined.

(** X8.  When all five values are set and call number [k] of connect,
    query, fetch is rejected, the check reports the error and ends with
    status 0 instead of raising; neither the cursor nor the connection is
    closed, also when the connection had been opened ([k] is 1 or 2). *)
Theorem failure_is_reported_not_closed (env : gmap string string)
    (k : nat) (e : exn) (rest : list (option exn))
    (identity : string * string * string) :
  (∀ v, v ∈ required_vars → is_set env v = true) →
  (k < 3)%nat →
  (main env (replicate k None ++ Some e :: rest) identity).2 = 0
  ∧ PrintFailed e
    ∈ (main env (replicate k None ++ Some e :: rest) identity).1
  ∧ (CloseConnection
     ∉ (main env (replicate k None ++ Some e :: rest) identity).1)
  ∧ (CloseCursor
     ∉ (main env (replicate k None ++ Some e :: rest) identity).1)
  ∧ (∀ v d u, PrintSuccess v d u
              ∉ (main env (replicate k None ++ Some e :: rest) identity).1).
Proof.
  intros Hall Hk.
  apply missing_nil_iff in Hall. unfold main. rewrite Hall.
  cbn [fst snd required_vars fmap list_fmap app].
  destruct k as [|[|[|k]]]; [| | |lia];
    cbn [replicate app connect_and_query next_fault report_failure];
    (split; [done|]); (split; [find_mem|]);
    repeat split; intros; intros H;
    repeat (apply elem_of_cons in H as [H|H]; [discriminate H|]);
    by apply elem_of_nil in H.
Qed.

Lemma env_complete_all_set v :
  v ∈ required_vars → is_set env_complete v = true.
Proof.
  unfold required_vars. intros Hv.
  repeat (apply elem_of_cons in Hv as [->|Hv]; [by vm_compute|]).
  by apply elem_of_nil in Hv.
Qed.

Lemma failure_is_reported_not_closed_witness :
  (main env_complete (replicate 1 None ++ Some (mkExn "DatabaseError" "x")
                        :: []) ("8.1", "CT_REAL_ESTATE", "etl")).2 = 0
  ∧ PrintFailed (mkExn "DatabaseError" "x")
    ∈ (main env_complete
         (replicate 1 None ++ Some (mkExn "DatabaseError" "x") :: [])
         ("8.1", "CT_REAL_ESTATE", "etl")).1
  ∧ (CloseConnection
     ∉ (main env_complete
          (replicate 1 None ++ Some (mkExn "DatabaseError" "x") :: [])
          ("8.1", "CT_REAL_ESTATE", "etl")).1)
  ∧ (CloseCursor
     ∉ (main env_complete
          (replicate 1 None ++ Some (mkExn "DatabaseError" "x") :: [])
          ("8.1", "CT_REAL_ESTATE", "etl")).1)
  ∧ (∀ v d u, PrintSuccess v d u
              ∉ (main env_complete
                   (replicate 1 None ++ Some (mkExn "DatabaseError" "x")
                      :: [])
                   ("8.1", "CT_REAL_ESTATE", "etl")).1).
Proof.
  apply (failure_is_reported_not_closed env_complete 1
           (mkExn "DatabaseError" "x") [] ("8.1", "CT_REAL_ESTATE", "etl")).
  - apply env_complete_all_set.
  - lia.
Defined.

End ConnectivityRuns.
